(** * cluster_by_color: the colour-system conversions of [lib/colour_system.py]

    A shallow embedding of the class [ColourSystem] and of the conversions it
    offers between chromaticities, XYZ tristimulus vectors, device RGB and
    81-sample spectra.

    Number model.  The program computes on binary64 numbers.  Here a finite
    number is an exact rational ([Q]): rounding, overflow and the sign of zero
    are not modelled.  What numpy does when a division has a zero divisor is
    modelled: it does not raise, it yields [nan] or an infinity, and these
    values then propagate through the arithmetic, the comparisons and the
    reductions ([np.min], [np.max]) the way IEEE 754 prescribes.  Numbers the
    caller passes in (chromaticities, white point, spectra, the reference
    tables) are finite; numbers the program obtains from an unguarded
    division are in the extended type [float].

    Reading the theorems on the program.  An exact quotient or sum of the
    model is in general not the number the program holds but the number it
    rounds, and a sum that is finite here can overflow there.  The theorems
    on [xyz_to_rgb], [rgb_to_hex] and [spec_to_xyz] are therefore stated on
    what rounding does not change: which branch is taken and which exception
    is raised, the sign and the order of numbers, the quotient of a number
    by itself, products and sums that binary64 computes exactly, [nan] and
    the infinities.  Where a theorem needs an array to be finite, that is a
    hypothesis on the array as computed.  Where binary64 itself decides an
    outcome, the function is evaluated on the kernel's binary64 numbers
    (module [B64]). *)

From Stdlib Require Import QArith Qround Lqa ZArith Lia List String Ascii Bool.
From Stdlib Require Import HexString Setoid Morphisms.
From Stdlib Require PrimFloat FloatOps SpecFloat.
Import ListNotations.

Local Open Scope Q_scope.

(** ** Extended numbers *)

Inductive float : Type :=
  | Fin (q : Q)
  | PInf
  | NInf
  | NaN.

Definition is_finite (x : float) : bool :=
  match x with Fin _ => true | _ => false end.

(** Equality of values: rationals are compared by their value, not by the
    fraction that denotes them. *)
Definition float_eq (x y : float) : Prop :=
  match x, y with
  | Fin a, Fin b => a == b
  | PInf, PInf | NInf, NInf | NaN, NaN => True
  | _, _ => False
  end.

Infix "=f=" := float_eq (at level 70, no associativity).

Definition Qltb (a b : Q) : bool :=
  match a ?= b with Lt => true | _ => false end.

Definition fopp (x : float) : float :=
  match x with
  | Fin a => Fin (- a)
  | PInf => NInf
  | NInf => PInf
  | NaN => NaN
  end.

Definition fadd (x y : float) : float :=
  match x, y with
  | NaN, _ | _, NaN => NaN
  | Fin a, Fin b => Fin (a + b)
  | PInf, NInf | NInf, PInf => NaN
  | PInf, _ | _, PInf => PInf
  | NInf, _ | _, NInf => NInf
  end.

(** The infinity that has the sign of [a] times the sign of [pos]; a zero
    factor gives [nan]. *)
Definition signed_inf (a : Q) (pos : bool) : float :=
  match a ?= 0 with
  | Eq => NaN
  | Gt => if pos then PInf else NInf
  | Lt => if pos then NInf else PInf
  end.

Definition fmul (x y : float) : float :=
  match x, y with
  | NaN, _ | _, NaN => NaN
  | Fin a, Fin b => Fin (a * b)
  | Fin a, PInf | PInf, Fin a => signed_inf a true
  | Fin a, NInf | NInf, Fin a => signed_inf a false
  | PInf, PInf | NInf, NInf => PInf
  | PInf, NInf | NInf, PInf => NInf
  end.

(** numpy's [true_divide] on two finite numbers: no exception on a zero
    divisor, but [nan] for 0/0 and an infinity otherwise. *)
Definition true_divide (a b : Q) : float :=
  if Qeq_bool b 0 then signed_inf a true else Fin (a / b).

Definition fdiv (x y : float) : float :=
  match x, y with
  | NaN, _ | _, NaN => NaN
  | Fin a, Fin b => true_divide a b
  | Fin _, _ => Fin 0
  | PInf, Fin b => if Qltb b 0 then NInf else PInf
  | NInf, Fin b => if Qltb b 0 then PInf else NInf
  | _, _ => NaN
  end.

(** [x < y] and [x == y] as numpy evaluates them: false when either side is
    [nan]. *)
Definition fltb (x y : float) : bool :=
  match x, y with
  | NaN, _ | _, NaN => false
  | Fin a, Fin b => Qltb a b
  | NInf, NInf => false
  | NInf, _ => true
  | _, PInf => match x with PInf => false | _ => true end
  | _, _ => false
  end.

Definition feqb (x y : float) : bool :=
  match x, y with
  | Fin a, Fin b => Qeq_bool a b
  | PInf, PInf | NInf, NInf => true
  | _, _ => false
  end.

(** The binary step of [np.min] and [np.max]: a [nan] operand wins. *)
Definition fminimum (x y : float) : float :=
  match x, y with
  | NaN, _ | _, NaN => NaN
  | _, _ => if fltb y x then y else x
  end.

Definition fmaximum (x y : float) : float :=
  match x, y with
  | NaN, _ | _, NaN => NaN
  | _, _ => if fltb x y then y else x
  end.

(** ** Arrays of shape (3,) and (3,3) *)

Definition vec3 (A : Type) : Type := (A * A * A)%type.
Definition mat3 (A : Type) : Type := vec3 (vec3 A).

Definition vmap {A B : Type} (f : A -> B) (v : vec3 A) : vec3 B :=
  let '(a, b, c) := v in (f a, f b, f c).

Definition vec3_eq (u v : vec3 float) : Prop :=
  let '(a, b, c) := u in
  let '(a', b', c') := v in
  a =f= a' /\ b =f= b' /\ c =f= c'.


(** [A.dot(v)] on exact numbers. *)
Definition Qdot (u v : vec3 Q) : Q :=
  let '(a, b, c) := u in
  let '(x, y, z) := v in
  a * x + b * y + c * z.

Definition Qmat_vec (A : mat3 Q) (v : vec3 Q) : vec3 Q :=
  vmap (fun row => Qdot row v) A.

(** [A.dot(v)] where the matrix may hold infinities and [nan]. *)
Definition fdot (u : vec3 float) (v : vec3 Q) : float :=
  let '(a, b, c) := u in
  let '(x, y, z) := v in
  fadd (fadd (fmul a (Fin x)) (fmul b (Fin y))) (fmul c (Fin z)).

Definition mat_vec (A : mat3 float) (v : vec3 Q) : vec3 float :=
  vmap (fun row => fdot row v) A.

(** [np.vstack((r, g, b)).T]: the three vectors become the columns. *)
Definition vstack_T (r g b : vec3 Q) : mat3 Q :=
  let '(r0, r1, r2) := r in
  let '(g0, g1, g2) := g in
  let '(b0, b1, b2) := b in
  ((r0, g0, b0), (r1, g1, b1), (r2, g2, b2)).

Definition det3 (A : mat3 Q) : Q :=
  let '((a, b, c), (d, e, f), (g, h, i)) := A in
  a * (e * i - f * h) - b * (d * i - f * g) + c * (d * h - e * g).

(** ** Exceptions *)

Inductive exn : Type :=
  | AttributeError
  | ValueError
  | LinAlgError.

Inductive result (A : Type) : Type :=
  | Ok (a : A)
  | Raise (e : exn).

Arguments Ok {A} a.
Arguments Raise {A} e.

Definition bind {A B : Type} (r : result A) (k : A -> result B) : result B :=
  match r with
  | Ok a => k a
  | Raise e => Raise e
  end.

Notation "x <- r ;; k" := (bind r (fun x => k))
  (at level 61, r at next level, right associativity).

(** [np.linalg.inv] of a 3x3 matrix: the exact inverse, and [LinAlgError]
    ("Singular matrix") when there is none.  LAPACK decides on the pivots of
    the rounded LU factors: the two agree on matrices far from singular,
    such as those of the colour systems of this module, and on matrices
    whose factorization is exact.  For a matrix that is singular only in
    exact arithmetic numpy may return an inverse with huge entries instead of
    raising, and the entries it returns are rounded. *)
Definition inv (A : mat3 Q) : result (mat3 Q) :=
  let '((a, b, c), (d, e, f), (g, h, i)) := A in
  let dt := det3 A in
  if Qeq_bool dt 0 then Raise LinAlgError
  else Ok (((e * i - f * h) / dt, (c * h - b * i) / dt, (b * f - c * e) / dt),
           ((f * g - d * i) / dt, (a * i - c * g) / dt, (c * d - a * f) / dt),
           ((d * h - e * g) / dt, (b * g - a * h) / dt, (a * e - b * d) / dt)).

(** ** Reductions and element-wise tests on a (3,) array *)

Definition np_any_lt0 (v : vec3 float) : bool :=
  let '(a, b, c) := v in
  fltb a (Fin 0) || fltb b (Fin 0) || fltb c (Fin 0).

Definition np_all_eq0 (v : vec3 float) : bool :=
  let '(a, b, c) := v in
  feqb a (Fin 0) && feqb b (Fin 0) && feqb c (Fin 0).

Definition np_min (v : vec3 float) : float :=
  let '(a, b, c) := v in fminimum (fminimum a b) c.

Definition np_max (v : vec3 float) : float :=
  let '(a, b, c) := v in fmaximum (fmaximum a b) c.

(** Arrays without [nan] and infinities. *)
Definition finite_vec (v : vec3 float) : bool :=
  let '(a, b, c) := v in is_finite a && is_finite b && is_finite c.

Definition finite_mat (A : mat3 float) : bool :=
  let '(r0, r1, r2) := A in finite_vec r0 && finite_vec r1 && finite_vec r2.

Definition vFin (v : vec3 Q) : vec3 float := vmap Fin v.

(** [below m x]: [m] is [nan], or neither is and [m] is at most [x]. This
    is how the result of [np.min] relates to every entry of the array. *)
Definition below (m x : float) : Prop :=
  match m, x with
  | NaN, _ => True
  | _, NaN => False
  | NInf, _ => True
  | Fin a, Fin b => a <= b
  | _, PInf => True
  | _, _ => False
  end.

(** ** Hex encoding *)

(** Conversion of a finite number to an integer by a C cast: the fraction
    is dropped, so the value moves toward zero. *)
Definition Qtrunc (q : Q) : Z := Z.quot (Qnum q) (Zpos (Qden q)).

(** [.astype(int)].  numpy's default integer is the C long, 64 bits wide on
    Linux and macOS and 32 on Windows.  For [nan], an infinity, or a number
    beyond the range of the integer type the C cast is undefined: numpy warns
    and stores a platform-dependent integer.  The model gives no value there
    ([None]), and takes the narrower range. *)
Definition astype_int (x : float) : option Z :=
  match x with
  | Fin q =>
      let z := Qtrunc q in
      if ((- 2 ^ 31 <=? z) && (z <? 2 ^ 31))%Z then Some z else None
  | _ => None
  end.

Definition hex_digits (n : Z) : string :=
  match n with
  | Zpos p => HexString.Raw.of_pos p ""
  | _ => "0"
  end.

(** Python's format spec [02x]: lowercase hex digits, a minus sign for a
    negative number, and zeros after the sign up to a width of 2. *)
Definition format_02x (n : Z) : string :=
  if (n <? 0)%Z then String "-" (hex_digits (Z.abs n))
  else
    let s := hex_digits n in
    if (String.length s <? 2)%nat then String "0" s else s.

(** ** Arrays of shape (n,) and (n,3) *)

Definition table : Type := list (vec3 Q).

Definition np_sum (l : list Q) : Q := fold_right Qplus 0 l.

(** [np.sum(A, axis=0)] of an (n,3) array: the three column sums. *)
Definition sum_axis0 (A : table) : vec3 Q :=
  fold_right (fun '(a, b, c) '(x, y, z) => (a + x, b + y, c + z)) (0, 0, 0) A.

(** [np.sum(A, axis=1)] of an (n,3) array: the sum of each row. *)
Definition sum_axis1 (A : table) : list Q :=
  map (fun '(a, b, c) => a + b + c) A.

Definition scale_row (s : Q) (row : vec3 Q) : vec3 Q :=
  let '(a, b, c) := row in (s * a, s * b, s * c).

Fixpoint zip_rows (spec : list Q) (A : table) : table :=
  match spec, A with
  | s :: spec', row :: A' => scale_row s row :: zip_rows spec' A'
  | _, _ => []
  end.

(** [spec[:, np.newaxis] * A], shapes (n,1) and (m,3), under numpy's
    broadcasting rules: the row counts must agree unless one of them is 1,
    in which case that single row is used against every row of the other
    operand; anything else raises [ValueError]. *)
Definition broadcast_rows (spec : list Q) (A : table) : result table :=
  if (List.length spec =? List.length A)%nat then Ok (zip_rows spec A)
  else
    match spec, A with
    | [s], _ => Ok (map (scale_row s) A)
    | _, [row] => Ok (map (fun s => scale_row s row) spec)
    | _, _ => Raise ValueError
    end.

(** [np.multiply(v, A)], shapes (3,) and (n,3): [v] is used against every
    row. *)
Definition multiply_rows (v : vec3 Q) (A : table) : table :=
  map (fun '(a, b, c) => let '(x, y, z) := v in (x * a, y * b, z * c)) A.

Definition zeros (n : nat) : list Q := repeat 0 n.

(** ** The class *)

Inductive rgb_out : Type :=
  | Frac (rgb : vec3 float)
  | Html (s : option string).

Section ColourSystemClass.

(** The reference tables read from [calibrate/] when the class is created:
    the two colour-matching functions (columns 1 to 3 of each file) and
    the D65 illuminant (column 1), all on the grid 380 - 780 nm in steps
    of 5 nm. The files are not part of the sources. *)
Variable cmf1931 : table.
Variable cmf1964 : table.
Variable D65 : list Q.

(** [np.sum(np.multiply(cmf1964[:, 1], D65))]; the two operands have one
    entry per grid point. *)
Definition weight : Q :=
  np_sum (map (fun '(y, d) => y * d)
              (combine (map (fun '(_, y, _) => y) cmf1964) D65)).

Record ColourSystem : Type := {
  red : vec3 Q;
  green : vec3 Q;
  blue : vec3 Q;
  white : vec3 Q;
  cmf : option table;   (* [None]: the attribute was never assigned *)
  M : mat3 Q;
  MI : mat3 Q;
  wscale : vec3 Q;
  T : mat3 float
}.

Definition __xyz_from_xy__ (x y : Q) : vec3 Q := (x, y, 1 - x - y).

Definition xy_to_xyz (x y : Q) : vec3 Q := __xyz_from_xy__ x y.

(** [MI / wscale[:, np.newaxis]]: row [i] of [MI] divided by
    [wscale[i]]. *)
Definition div_rows (A : mat3 Q) (w : vec3 Q) : mat3 float :=
  let '(r0, r1, r2) := A in
  let '(w0, w1, w2) := w in
  (vmap (fun a => true_divide a w0) r0,
   vmap (fun a => true_divide a w1) r1,
   vmap (fun a => true_divide a w2) r2).

Definition __init__ (red green blue : Q * Q) (white : vec3 Q) (cmf : Z)
  : result ColourSystem :=
  let red := __xyz_from_xy__ (fst red) (snd red) in
  let green := __xyz_from_xy__ (fst green) (snd green) in
  let blue := __xyz_from_xy__ (fst blue) (snd blue) in
  let self_cmf := if (cmf =? 1964)%Z then Some cmf1964 else None in
  let self_cmf := if (cmf =? 1931)%Z then Some cmf1931 else self_cmf in
  let M := vstack_T red green blue in
  MI <- inv M ;;
  let wscale := Qmat_vec MI white in
  let T := div_rows MI wscale in
  Ok {| red := red; green := green; blue := blue; white := white;
        cmf := self_cmf; M := M; MI := MI; wscale := wscale; T := T |}.

Definition rgb_to_hex (rgb : vec3 float) : option string :=
  let '(r, g, b) := vmap (fun x => astype_int (fmul (Fin 255) x)) rgb in
  match r, g, b with
  | Some r, Some g, Some b =>
      Some (String "#" (format_02x r ++ format_02x g ++ format_02x b)%string)
  | _, _, _ => None
  end.

(** The two in-place updates of [xyz_to_rgb]. *)
Definition desaturate (rgb : vec3 float) : vec3 float :=
  if np_any_lt0 rgb then
    let w := fopp (np_min rgb) in
    vmap (fun x => fadd x w) rgb
  else rgb.

Definition normalize (rgb : vec3 float) : vec3 float :=
  if negb (np_all_eq0 rgb) then
    let m := np_max rgb in
    vmap (fun x => fdiv x m) rgb
  else rgb.

Definition xyz_to_rgb (self : ColourSystem) (xyz : vec3 Q)
    (out_fmt : option string) : rgb_out :=
  let rgb := mat_vec (T self) xyz in
  let rgb := desaturate rgb in
  let rgb := normalize rgb in
  match out_fmt with
  | Some "html"%string => Html (rgb_to_hex rgb)
  | _ => Frac rgb
  end.

Definition xy_to_rgb (self : ColourSystem) (x y : Q)
    (out_fmt : option string) : rgb_out :=
  let xyz := xy_to_xyz x y in
  xyz_to_rgb self xyz out_fmt.

Definition xyz_to_spec (self : ColourSystem) (xyz : vec3 Q) : list Q :=
  let result := vmap (fun a => a * weight) xyz in
  sum_axis1 (multiply_rows result cmf1964).

Definition xy_to_spec (self : ColourSystem) (x y : Q) : list Q :=
  let xyz := xy_to_xyz x y in
  xyz_to_spec self xyz.

Definition spec_to_xyz (self : ColourSystem) (spec : list Q)
  : result (vec3 Q) :=
  match cmf self with
  | None => Raise AttributeError
  | Some self_cmf =>
      prod <- broadcast_rows spec self_cmf ;;
      let XYZ := sum_axis0 prod in
      let '(X, Y, Z) := XYZ in
      let den := X + Y + Z in
      if Qeq_bool den 0 then Ok XYZ
      else Ok (X / den, Y / den, Z / den)
  end.

Definition spec_to_rgb (self : ColourSystem) (spec : list Q)
    (out_fmt : option string) : result rgb_out :=
  xyz <- spec_to_xyz self spec ;;
  Ok (xyz_to_rgb self xyz out_fmt).


Definition illuminant_D65 : vec3 Q := xy_to_xyz 0.3127 0.3291.

Definition cs_hdtv : result ColourSystem :=
  __init__ (0.67, 0.33) (0.21, 0.71) (0.15, 0.06) illuminant_D65 1964.

Definition cs_smpte : result ColourSystem :=
  __init__ (0.63, 0.34) (0.31, 0.595) (0.155, 0.070) illuminant_D65 1964.

Definition cs_srgb : result ColourSystem :=
  __init__ (0.64, 0.33) (0.30, 0.60) (0.15, 0.06) illuminant_D65 1964.

End ColourSystemClass.

(** ** The projection onto a spectrum, as the specification words it

    The weight is the sum, over the 81 grid points, of the Y channel of the
    1964 table times the D65 power; the projection scales the XYZ vector by
    the weight and, for each row of the 1964 table, sums the element-wise
    product of the scaled vector with that row. *)

Definition weight_spec (cmf1964 : table) (D65 : list Q) : Q :=
  np_sum (map (fun k => snd (fst (nth k cmf1964 (0, 0, 0))) * nth k D65 0)
              (seq 0 81)).

Definition xyz_to_spec_spec (cmf1964 : table) (D65 : list Q) (xyz : vec3 Q)
  : list Q :=
  let scaled := scale_row (weight_spec cmf1964 D65) xyz in
  map (fun row => Qdot scaled row) cmf1964.

(** ** Stand-ins for the reference tables

    The files under [calibrate/] are not available; where a concrete table
    is needed to run the model, a flat one with the right shape is used. *)

Definition flat_cmf : table := repeat (1, 1, 1) 81.
Definition flat_D65 : list Q := repeat 1 81.


(** ** Components that binary64 multiplies by 255 without rounding

    A number [j / 2^n] with [n <= 44] and [0 <= j <= 2^n] is a binary64
    value, and so is its product with 255, whose numerator stays below
    [2^53].  For these components the product that [rgb_to_hex] truncates
    is the exact one; for other components (0.6, say) the program truncates
    the rounded product, which can be the next integer. *)
Definition dyadic_unit (q : Q) : bool :=
  let r := Qred q in
  let d := Zpos (Qden r) in
  (d =? 2 ^ Z.log2 d)%Z && (Z.log2 d <=? 44)%Z &&
  (0 <=? Qnum r)%Z && (Qnum r <=? d)%Z.


(** ** Evaluation on binary64 numbers

    [spec_to_xyz] and the product of [rgb_to_hex] once more, on the
    machine's numbers, to evaluate them where the rounding or the range of
    binary64 decides the outcome.  The arithmetic is the kernel's IEEE 754
    binary64 (round to nearest, ties to even), the one numpy uses;
    [np.sum(..., axis=0)] adds the rows in order, and [np.sum] of the three
    components adds them left to right. *)
Module B64.
Import PrimFloat.

Definition scale_row (s : float) (row : vec3 float) : vec3 float :=
  let '(a, b, c) := row in (s * a, s * b, s * c)%float.

Fixpoint zip_rows (spec : list float) (A : list (vec3 float))
  : list (vec3 float) :=
  match spec, A with
  | s :: spec', row :: A' => scale_row s row :: zip_rows spec' A'
  | _, _ => []
  end.

Definition broadcast_rows (spec : list float) (A : list (vec3 float))
  : result (list (vec3 float)) :=
  if (List.length spec =? List.length A)%nat then Ok (zip_rows spec A)
  else
    match spec, A with
    | [s], _ => Ok (map (scale_row s) A)
    | _, [row] => Ok (map (fun s => scale_row s row) spec)
    | _, _ => Raise ValueError
    end.

Definition sum_axis0 (A : list (vec3 float)) : vec3 float :=
  fold_left (fun '(x, y, z) '(a, b, c) => (x + a, y + b, z + c)%float)
            A (0, 0, 0)%float.

(** [spec_to_xyz] of an instance whose [cmf] attribute is [self_cmf]. *)
Definition spec_to_xyz (self_cmf : option (list (vec3 float)))
    (spec : list float) : result (vec3 float) :=
  match self_cmf with
  | None => Raise AttributeError
  | Some tbl =>
      prod <- broadcast_rows spec tbl ;;
      let '(X, Y, Z) := sum_axis0 prod in
      let den := (X + Y + Z)%float in
      if (den =? 0)%float then Ok (X, Y, Z)
      else Ok (X / den, Y / den, Z / den)%float
  end.

(** The product [255 * x] that [rgb_to_hex] hands to [astype(int)]. *)
Definition times_255 (x : float) : float := (255 * x)%float.

(** The rational that a finite binary64 number stands for. *)
Definition to_Q (x : float) : option Q :=
  match FloatOps.Prim2SF x with
  | SpecFloat.S754_zero _ => Some 0
  | SpecFloat.S754_finite s m e =>
      let v := inject_Z (Zpos m) * 2 ^ e in
      Some (Qred (if s then - v else v))
  | _ => None
  end.

(** A flat table of 81 rows, a spectrum of 81 samples of [2^1017], and the
    binary64 number nearest to 0.6, the one that the literal [0.6] denotes
    in Python. *)
Definition flat_cmf : list (vec3 float) := repeat (1, 1, 1)%float 81.
Definition six_tenths : float := 0x1.3333333333333p-1%float.

End B64.

(** * Properties *)

(** ** Comparisons on exact numbers *)

Lemma Qltb_lt (a b : Q) : Qltb a b = true <-> a < b.
Proof.
  unfold Qltb. rewrite Qlt_alt.
  destruct (a ?= b); split; intro H; congruence.
Qed.

Lemma Qltb_ge (a b : Q) : Qltb a b = false <-> b <= a.
Proof.
  rewrite <- Bool.not_true_iff_false, Qltb_lt. split; intro H; lra.
Qed.

Lemma Qeq_bool_false (a b : Q) : Qeq_bool a b = false <-> ~ a == b.
Proof.
  split.
  - apply Qeq_bool_neq.
  - intro H. destruct (Qeq_bool a b) eqn:E; trivial.
    apply Qeq_bool_iff in E. contradiction.
Qed.

Lemma Qltb_spec (a b : Q) : reflect (a < b) (Qltb a b).
Proof.
  destruct (Qltb a b) eqn:E; constructor.
  - now apply Qltb_lt.
  - apply Qltb_ge in E. lra.
Qed.

Lemma Qeq_bool_spec (a b : Q) : reflect (a == b) (Qeq_bool a b).
Proof.
  destruct (Qeq_bool a b) eqn:E; constructor.
  - now apply Qeq_bool_iff.
  - now apply Qeq_bool_false.
Qed.

#[global] Instance float_eq_equiv : Equivalence float_eq.
Proof.
  split.
  - intros [a| | |]; simpl; trivial. reflexivity.
  - intros [a| | |] [b| | |]; simpl; trivial. intro; now symmetry.
  - intros [a| | |] [b| | |] [c| | |]; simpl; trivial; try contradiction.
    intros; etransitivity; eassumption.
Qed.

(** ** Truncation *)

Lemma Qtrunc_floor (q : Q) : 0 <= q -> Qtrunc q = Qfloor q.
Proof.
  destruct q as [n d]. unfold Qtrunc, Qfloor, Qle. simpl. intro H.
  apply Z.quot_div_nonneg; lia.
Qed.

Lemma Qtrunc_ceiling (q : Q) : q <= 0 -> Qtrunc q = Qceiling q.
Proof.
  destruct q as [n d]. unfold Qtrunc, Qceiling, Qfloor, Qle. simpl. intro H.
  replace n with (- - n)%Z at 1 by lia.
  rewrite Z.quot_opp_l by lia.
  f_equal. apply Z.quot_div_nonneg; lia.
Qed.

#[global] Instance Qtrunc_comp : Proper (Qeq ==> eq) Qtrunc.
Proof.
  intros a b E.
  destruct (Qlt_le_dec a 0) as [Ha | Ha].
  - rewrite !Qtrunc_ceiling by lra. now rewrite E.
  - rewrite !Qtrunc_floor by lra. now rewrite E.
Qed.


#[global] Instance astype_int_comp : Proper (float_eq ==> eq) astype_int.
Proof.
  intros [a| | |] [b| | |] E; cbn [astype_int float_eq] in *;
    try contradiction; trivial.
  now rewrite (Qtrunc_comp a b E).
Qed.

#[global] Instance fmul_comp : Proper (float_eq ==> float_eq ==> float_eq) fmul.
Proof.
  assert (S : forall a b p, a == b -> signed_inf a p =f= signed_inf b p).
  { intros a b p E. unfold signed_inf. rewrite E.
    destruct (b ?= 0), p; simpl; trivial. }
  intros [a| | |] [b| | |] E [c| | |] [d| | |] E'; simpl in *;
    try contradiction; trivial; try (now apply S).
  now rewrite E, E'.
Qed.

Lemma rgb_to_hex_comp (u v : vec3 float) :
  vec3_eq u v -> rgb_to_hex u = rgb_to_hex v.
Proof.
  destruct u as [[a b] c], v as [[a' b'] c']. intros (Ha & Hb & Hc).
  assert (E : forall x y, x =f= y ->
            astype_int (fmul (Fin 255) x) = astype_int (fmul (Fin 255) y)).
  { intros x y Hxy. apply astype_int_comp, fmul_comp; [reflexivity | exact Hxy]. }
  unfold rgb_to_hex, vmap.
  now rewrite (E _ _ Ha), (E _ _ Hb), (E _ _ Hc).
Qed.

(** Every byte value is written with exactly two hex digits. *)
Lemma format_02x_width (n : Z) :
  (0 <= n < 256)%Z -> String.length (format_02x n) = 2%nat.
Proof.
  intro H.
  assert (A : forallb (fun k => (String.length (format_02x (Z.of_nat k)) =? 2)%nat)
                      (seq 0 256) = true) by (vm_compute; reflexivity).
  rewrite forallb_forall in A.
  specialize (A (Z.to_nat n)). rewrite Z2Nat.id in A by lia.
  apply Nat.eqb_eq, A, in_seq. lia.
Qed.

(** ** Finite arrays *)

Lemma finite_vec_inv (v : vec3 float) :
  finite_vec v = true -> exists q, v = vFin q.
Proof.
  destruct v as [[[a| | |] [b| | |]] [c| | |]]; simpl; try discriminate.
  intros _. now exists (a, b, c).
Qed.

Lemma np_min_fin (a b c : Q) :
  exists m, np_min (Fin a, Fin b, Fin c) = Fin m /\
            m <= a /\ m <= b /\ m <= c /\ (m = a \/ m = b \/ m = c).
Proof.
  unfold np_min, fminimum, fltb.
  destruct (Qltb_spec b a) as [Hba | Hba];
    [destruct (Qltb_spec c b) as [Hc | Hc] | destruct (Qltb_spec c a) as [Hc | Hc]];
    eexists; (split; [reflexivity |]); repeat split; auto; lra.
Qed.

Lemma np_max_fin (a b c : Q) :
  exists m, np_max (Fin a, Fin b, Fin c) = Fin m /\
            a <= m /\ b <= m /\ c <= m /\ (m = a \/ m = b \/ m = c).
Proof.
  unfold np_max, fmaximum, fltb.
  destruct (Qltb_spec a b) as [Hab | Hab];
    [destruct (Qltb_spec b c) as [Hc | Hc] | destruct (Qltb_spec a c) as [Hc | Hc]];
    eexists; (split; [reflexivity |]); repeat split; auto; lra.
Qed.

Lemma np_any_lt0_fin (a b c : Q) :
  np_any_lt0 (Fin a, Fin b, Fin c) = true <-> a < 0 \/ b < 0 \/ c < 0.
Proof.
  unfold np_any_lt0, fltb. rewrite !orb_true_iff, !Qltb_lt. tauto.
Qed.

Lemma np_all_eq0_fin (a b c : Q) :
  np_all_eq0 (Fin a, Fin b, Fin c) = true <-> a == 0 /\ b == 0 /\ c == 0.
Proof.
  unfold np_all_eq0, feqb. rewrite !andb_true_iff, !Qeq_bool_iff. tauto.
Qed.

(** The desaturation step on a finite array: a uniform shift by [w >= 0]
    that leaves no negative component; when a shift takes place, [w] is the
    opposite of the least component, which therefore lands on zero. *)
Lemma desaturate_fin (a b c : Q) :
  exists a' b' c' w,
    desaturate (Fin a, Fin b, Fin c) = (Fin a', Fin b', Fin c') /\
    a' == a + w /\ b' == b + w /\ c' == c + w /\
    0 <= w /\ 0 <= a' /\ 0 <= b' /\ 0 <= c' /\
    (a < 0 \/ b < 0 \/ c < 0 ->
       np_min (Fin a, Fin b, Fin c) =f= Fin (- w) /\
       (a' == 0 \/ b' == 0 \/ c' == 0)) /\
    (~ (a < 0 \/ b < 0 \/ c < 0) -> a' = a /\ b' = b /\ c' = c).
Proof.
  unfold desaturate.
  destruct (np_any_lt0 (Fin a, Fin b, Fin c)) eqn:E.
  - apply np_any_lt0_fin in E.
    destruct (np_min_fin a b c) as (m & Hm & Ha & Hb & Hc & Hin).
    exists (a + - m), (b + - m), (c + - m), (- m).
    rewrite Hm. cbn [fopp vmap fadd].
    split; [reflexivity |].
    repeat split; try reflexivity; try lra; try tauto.
    + simpl. lra.
    + destruct Hin as [-> | [-> | ->]]; [left | right; left | right; right]; lra.
  - assert (H : ~ (a < 0 \/ b < 0 \/ c < 0)).
    { rewrite <- np_any_lt0_fin, E. discriminate. }
    exists a, b, c, 0.
    repeat split; try lra; try tauto.
Qed.

Lemma true_divide_nonzero (a b : Q) : ~ b == 0 -> true_divide a b = Fin (a / b).
Proof.
  intro H. unfold true_divide.
  now destruct (Qeq_bool_spec b 0).
Qed.

Lemma Qdiv_bounds (x m : Q) : 0 < m -> 0 <= x -> x <= m -> 0 <= x / m <= 1.
Proof.
  intros Hm H0 Hx. split.
  - apply Qle_shift_div_l; lra.
  - apply Qle_shift_div_r; lra.
Qed.


(** The normalization step on a finite array without negative components:
    unless the array is all zero, every component is divided by the largest
    one, which is positive. *)
Lemma normalize_fin (a b c : Q) :
  0 <= a -> 0 <= b -> 0 <= c ->
  np_all_eq0 (Fin a, Fin b, Fin c) = false ->
  exists m,
    np_max (Fin a, Fin b, Fin c) = Fin m /\ 0 < m /\
    a <= m /\ b <= m /\ c <= m /\ (m = a \/ m = b \/ m = c) /\
    normalize (Fin a, Fin b, Fin c) = (Fin (a / m), Fin (b / m), Fin (c / m)).
Proof.
  intros Ha Hb Hc E.
  destruct (np_max_fin a b c) as (m & Hm & Ham & Hbm & Hcm & Hin).
  assert (Hpos : 0 < m).
  { destruct (Qlt_le_dec 0 m) as [H | H]; trivial.
    assert (A : np_all_eq0 (Fin a, Fin b, Fin c) = true)
      by (apply np_all_eq0_fin; repeat split; lra).
    congruence. }
  exists m. repeat split; trivial.
  unfold normalize. rewrite E, Hm. cbn [negb vmap fdiv].
  rewrite !true_divide_nonzero by lra. reflexivity.
Qed.

Lemma normalize_zero (v : vec3 float) :
  np_all_eq0 v = true -> normalize v = v.
Proof. intro E. unfold normalize. now rewrite E. Qed.


(** ** Arrays with infinities and [nan] *)

Ltac case_cmp :=
  match goal with
  | |- context [Qltb ?a ?b] => destruct (Qltb_spec a b)
  | |- context [Qeq_bool ?a ?b] => destruct (Qeq_bool_spec a b)
  | H : context [Qltb ?a ?b] |- _ => destruct (Qltb_spec a b)
  | |- context [?a ?= ?b] =>
      let E := fresh "E" in
      destruct (a ?= b) eqn:E;
      [apply Qeq_alt in E | apply Qlt_alt in E | apply Qgt_alt in E]
  end.

Ltac float_cases :=
  cbn; repeat (case_cmp; cbn); try reflexivity; try discriminate;
  try tauto; try lra.

Lemma fminimum_below_l (x y : float) : below (fminimum x y) x.
Proof. destruct x, y; unfold fminimum, below; float_cases. Qed.

Lemma fminimum_below_r (x y : float) : below (fminimum x y) y.
Proof. destruct x, y; unfold fminimum, below; float_cases. Qed.

Lemma below_fminimum (m x z : float) : below m x -> below (fminimum m z) x.
Proof. destruct m, x, z; unfold fminimum, below; intro H; float_cases. Qed.

Lemma shift_not_negative (m x : float) :
  below m x -> fltb (fadd x (fopp m)) (Fin 0) = false.
Proof. destruct m, x; unfold below; intro H; float_cases. Qed.

Lemma desaturate_not_negative (v : vec3 float) :
  np_any_lt0 (desaturate v) = false.
Proof.
  unfold desaturate.
  destruct (np_any_lt0 v) eqn:E; trivial.
  destruct v as [[x y] z]. cbn [vmap np_min np_any_lt0].
  rewrite !shift_not_negative; trivial.
  - apply fminimum_below_r.
  - apply below_fminimum, fminimum_below_r.
  - apply below_fminimum, fminimum_below_l.
Qed.

Lemma fmaximum_not_negative (x y : float) :
  fltb x (Fin 0) = false -> fltb y (Fin 0) = false ->
  fltb (fmaximum x y) (Fin 0) = false.
Proof. destruct x, y; unfold fmaximum; cbn; intros Hx Hy; float_cases. Qed.

Lemma fdiv_not_negative (x m : float) :
  fltb x (Fin 0) = false -> fltb m (Fin 0) = false ->
  fltb (fdiv x m) (Fin 0) = false.
Proof.
  destruct x as [a| | |], m as [b| | |]; cbn; intros Hx Hm; trivial;
    try discriminate.
  - apply Qltb_ge in Hx, Hm. unfold true_divide, signed_inf.
    destruct (Qeq_bool_spec b 0).
    + destruct (a ?= 0) eqn:E; try reflexivity. apply Qlt_alt in E. lra.
    + cbn. apply Qltb_ge. apply Qle_shift_div_l; lra.
  - now rewrite Hm.
Qed.

Lemma np_any_lt0_false (x y z : float) :
  np_any_lt0 (x, y, z) = false <->
  fltb x (Fin 0) = false /\ fltb y (Fin 0) = false /\ fltb z (Fin 0) = false.
Proof. unfold np_any_lt0. rewrite !orb_false_iff. tauto. Qed.

Lemma normalize_not_negative (v : vec3 float) :
  np_any_lt0 v = false -> np_any_lt0 (normalize v) = false.
Proof.
  intro H. unfold normalize.
  destruct (np_all_eq0 v); trivial.
  destruct v as [[x y] z]. cbn [negb vmap np_max].
  apply np_any_lt0_false in H. destruct H as (Hx & Hy & Hz).
  assert (Hm : fltb (fmaximum (fmaximum x y) z) (Fin 0) = false)
    by (repeat apply fmaximum_not_negative; assumption).
  apply np_any_lt0_false. repeat split; now apply fdiv_not_negative.
Qed.


(** ** The transform built by the constructor *)

Lemma init_fields (cmf1931 cmf1964 : table) (r g b : Q * Q)
    (wp : vec3 Q) (v : Z) (cs : ColourSystem) :
  __init__ cmf1931 cmf1964 r g b wp v = Ok cs ->
  exists A,
    inv (vstack_T (__xyz_from_xy__ (fst r) (snd r))
                  (__xyz_from_xy__ (fst g) (snd g))
                  (__xyz_from_xy__ (fst b) (snd b))) = Ok A /\
    MI cs = A /\ wscale cs = Qmat_vec A wp /\
    T cs = div_rows A (Qmat_vec A wp) /\
    white cs = wp /\
    cmf cs = (if (v =? 1931)%Z then Some cmf1931
              else if (v =? 1964)%Z then Some cmf1964 else None).
Proof.
  unfold __init__.
  destruct (inv _) as [A | e]; cbn [bind]; [| discriminate].
  intro H. injection H as <-. exists A. cbn.
  repeat split; reflexivity.
Qed.

(** ** [xyz_to_rgb] *)

Lemma xyz_to_rgb_frac (cs : ColourSystem) (xyz : vec3 Q) :
  xyz_to_rgb cs xyz None =
  Frac (normalize (desaturate (mat_vec (T cs) xyz))).
Proof. reflexivity. Qed.

Lemma xyz_to_rgb_html (cs : ColourSystem) (xyz : vec3 Q) :
  xyz_to_rgb cs xyz (Some "html"%string) =
  Html (rgb_to_hex (normalize (desaturate (mat_vec (T cs) xyz)))).
Proof. reflexivity. Qed.

(** C3. No component of the fractional vector that [xyz_to_rgb] returns is
    negative, for every colour system and every XYZ input, also when the
    transform holds infinities or [nan].  When some component of [T.xyz] is
    negative, the desaturation step adds [w = -min(rgb)] to all three
    components; on a finite array the least component thereby becomes zero;
    normalization keeps an array free of negative components. *)
Theorem xyz_to_rgb_not_negative (cs : ColourSystem) (xyz : vec3 Q) :
  (exists r g b,
     xyz_to_rgb cs xyz None = Frac (r, g, b) /\
     fltb r (Fin 0) = false /\ fltb g (Fin 0) = false /\
     fltb b (Fin 0) = false) /\
  (forall rgb,
     np_any_lt0 rgb = true ->
     desaturate rgb = vmap (fun x => fadd x (fopp (np_min rgb))) rgb /\
     np_any_lt0 (desaturate rgb) = false /\
     (finite_vec rgb = true -> np_min (desaturate rgb) =f= Fin 0)) /\
  (forall rgb,
     np_any_lt0 rgb = false -> np_any_lt0 (normalize rgb) = false).
Proof.
  split; [| split].
  - rewrite xyz_to_rgb_frac.
    pose proof (normalize_not_negative _
                  (desaturate_not_negative (mat_vec (T cs) xyz))) as H.
    destruct (normalize _) as [[r g] b].
    apply np_any_lt0_false in H. now exists r, g, b.
  - intros rgb Hneg. split; [| split].
    + unfold desaturate. now rewrite Hneg.
    + apply desaturate_not_negative.
    + intro Hfin. apply finite_vec_inv in Hfin.
      destruct Hfin as [[[a b] c] ->]. cbn [vFin vmap] in *.
      destruct (desaturate_fin a b c)
        as (a' & b' & c' & w & -> & _ & _ & _ & _ & Ha & Hb & Hc & Hz & _).
      apply np_any_lt0_fin in Hneg. destruct (Hz Hneg) as [_ Hz'].
      destruct (np_min_fin a' b' c') as (m & -> & Hma & Hmb & Hmc & Hin).
      cbn. apply Qle_antisym.
      * destruct Hz' as [E | [E | E]]; lra.
      * destruct Hin as [-> | [-> | ->]]; assumption.
  - apply normalize_not_negative.
Qed.


Lemma vec3_eq_zero_all_eq0 (v : vec3 float) :
  vec3_eq v (Fin 0, Fin 0, Fin 0) -> np_any_lt0 v = false /\ np_all_eq0 v = true.
Proof.
  destruct v as [[[a| | |] [b| | |]] [c| | |]]; cbn; try tauto.
  intros (Ha & Hb & Hc). split.
  - apply not_true_is_false.
    rewrite (np_any_lt0_fin a b c). lra.
  - apply (np_all_eq0_fin a b c). tauto.
Qed.

(** C10, as the code has it. In a colour system whose transform is finite
    (no component of the white-scaling vector is zero), the all-zero XYZ
    input gives the all-zero rgb array: the product [T.xyz] is zero, so
    neither the desaturation nor the normalization step is taken, and the
    hex encoding is [#000000]. *)
Theorem xyz_to_rgb_zero (cs : ColourSystem) :
  finite_mat (T cs) = true ->
  let rgb := mat_vec (T cs) (0, 0, 0) in
  vec3_eq rgb (Fin 0, Fin 0, Fin 0) /\
  desaturate rgb = rgb /\
  normalize (desaturate rgb) = desaturate rgb /\
  xyz_to_rgb cs (0, 0, 0) None = Frac rgb /\
  xyz_to_rgb cs (0, 0, 0) (Some "html"%string) = Html (Some "#000000"%string).
Proof.
  intros Hfin rgb.
  assert (Hz : vec3_eq rgb (Fin 0, Fin 0, Fin 0)).
  { subst rgb. destruct (T cs) as [[r0 r1] r2]. cbn in Hfin.
    rewrite !andb_true_iff in Hfin. destruct Hfin as [[H0 H1] H2].
    apply finite_vec_inv in H0, H1, H2.
    destruct H0 as [[[a0 b0] c0] ->], H1 as [[[a1 b1] c1] ->],
             H2 as [[[a2 b2] c2] ->].
    cbn. repeat split; ring. }
  destruct (vec3_eq_zero_all_eq0 rgb Hz) as [Hneg Hall].
  assert (Hd : desaturate rgb = rgb) by (unfold desaturate; now rewrite Hneg).
  assert (Hn : normalize (desaturate rgb) = desaturate rgb)
    by (rewrite Hd; now apply normalize_zero).
  repeat split; trivial.
  - rewrite xyz_to_rgb_frac. fold rgb. now rewrite Hn, Hd.
  - rewrite xyz_to_rgb_html. fold rgb. rewrite Hn, Hd.
    now rewrite (rgb_to_hex_comp _ _ Hz).
Qed.

(** ** Spectra *)


Lemma broadcast_rows_mismatch (spec : list Q) (A : table) :
  List.length spec <> List.length A ->
  List.length spec <> 1%nat -> List.length A <> 1%nat ->
  broadcast_rows spec A = Raise ValueError.
Proof.
  intros H Hs HA. unfold broadcast_rows.
  apply Nat.eqb_neq in H. rewrite H.
  destruct spec as [| s [| s' spec]]; [| now contradiction Hs |];
    destruct A as [| r [| r' A]]; trivial; now contradiction HA.
Qed.

Lemma broadcast_rows_single (s : Q) (A : table) :
  List.length A <> 1%nat ->
  broadcast_rows [s] A = Ok (map (scale_row s) A).
Proof.
  intro H. unfold broadcast_rows.
  destruct (Nat.eqb_spec (List.length [s]) (List.length A)) as [E | E]; trivial.
  now contradiction H.
Qed.








(** C6, on the code. With a table of 81 rows, a spectrum of length 1 is not
    rejected: no exception is raised, the single sample is used against
    every row of the table and [spec_to_xyz] returns.  Every other length
    that is not 81 makes the product raise numpy's [ValueError] for shapes
    that cannot be broadcast. *)
Theorem spec_to_xyz_length_one_not_rejected (cs : ColourSystem) (tbl : table) :
  cmf cs = Some tbl -> List.length tbl = 81%nat ->
  (forall (s : Q) (e : exn),
     List.length [s] <> 81%nat /\ spec_to_xyz cs [s] <> Raise e) /\
  (forall spec : list Q,
     List.length spec <> 81%nat -> List.length spec <> 1%nat ->
     spec_to_xyz cs spec = Raise ValueError).
Proof.
  intros Hc Hl. split.
  - intros s e. split; [discriminate |].
    unfold spec_to_xyz. rewrite Hc.
    rewrite broadcast_rows_single by (rewrite Hl; discriminate).
    cbn [bind].
    destruct (sum_axis0 (map (scale_row s) tbl)) as [[X Y] Z].
    destruct (Qeq_bool (X + Y + Z) 0); discriminate.
  - intros spec Hs H1. unfold spec_to_xyz. rewrite Hc.
    rewrite broadcast_rows_mismatch; trivial; rewrite Hl; try assumption.
    discriminate.
Qed.


(** C5, on the code. A colour-matching variant other than 1964 and 1931 is
    not rejected: the constructor returns an instance, here for the sRGB
    primaries and the variant 2000, whose [cmf] attribute was never
    assigned, and [spec_to_xyz] on that instance raises [AttributeError]. *)
Theorem unknown_cmf_variant_not_rejected (cmf1931 cmf1964 : table) :
  exists cs,
    __init__ cmf1931 cmf1964 (0.64, 0.33) (0.30, 0.60) (0.15, 0.06)
             illuminant_D65 2000 = Ok cs /\
    cmf cs = None /\
    forall spec, spec_to_xyz cs spec = Raise AttributeError.
Proof.
  eexists. split; [vm_compute; reflexivity |].
  split; [reflexivity |].
  intro spec. reflexivity.
Qed.

(** The same for every variant other than the two the constructor knows. *)
Lemma unknown_cmf_variant_unset (cmf1931 cmf1964 : table)
    (red green blue : Q * Q) (white : vec3 Q) (v : Z) (cs : ColourSystem) :
  v <> 1964%Z -> v <> 1931%Z ->
  __init__ cmf1931 cmf1964 red green blue white v = Ok cs ->
  cmf cs = None /\ forall spec, spec_to_xyz cs spec = Raise AttributeError.
Proof.
  intros H64 H31 Hinit.
  destruct (init_fields _ _ _ _ _ _ _ _ Hinit) as (_ & _ & _ & _ & _ & _ & Hc).
  apply Z.eqb_neq in H64, H31. rewrite H64, H31 in Hc.
  split; trivial. intro spec. unfold spec_to_xyz. now rewrite Hc.
Qed.

Lemma known_cmf_variant_set (cmf1931 cmf1964 : table)
    (red green blue : Q * Q) (white : vec3 Q) (v : Z) (cs : ColourSystem) :
  __init__ cmf1931 cmf1964 red green blue white v = Ok cs ->
  (v = 1964%Z -> cmf cs = Some cmf1964) /\
  (v = 1931%Z -> cmf cs = Some cmf1931).
Proof.
  intro Hinit.
  destruct (init_fields _ _ _ _ _ _ _ _ Hinit) as (_ & _ & _ & _ & _ & _ & Hc).
  split; intros ->; exact Hc.
Qed.

(** A component in [0,1] becomes a byte: 255 times the component, with the
    fraction dropped. *)
Lemma byte_of_unit (q : Q) :
  0 <= q <= 1 ->
  astype_int (fmul (Fin 255) (Fin q)) = Some (Qfloor (255 * q)) /\
  (0 <= Qfloor (255 * q) < 256)%Z.
Proof.
  intro Hq.
  assert (B : (0 <= Qfloor (255 * q) < 256)%Z).
  { split.
    - change 0%Z with (Qfloor 0). apply Qfloor_resp_le. lra.
    - apply Z.le_lt_trans with (Qfloor 255); [| reflexivity].
      apply Qfloor_resp_le. lra. }
  split; trivial.
  cbn [fmul astype_int]. rewrite Qtrunc_floor by lra.
  replace ((- 2 ^ 31 <=? Qfloor (255 * q)) && (Qfloor (255 * q) <? 2 ^ 31))%Z
    with true; trivial.
  symmetry. apply andb_true_iff. split; lia.
Qed.

Lemma dyadic_unit_range (q : Q) : dyadic_unit q = true -> 0 <= q <= 1.
Proof.
  unfold dyadic_unit. cbv zeta. rewrite !andb_true_iff.
  intros [[_ Hn] Hd]. apply Z.leb_le in Hn, Hd.
  rewrite <- (Qred_correct q). destruct (Qred q) as [n d].
  unfold Qle. cbn in *. lia.
Qed.




(** ** [xyz_to_spec] *)

Lemma map_seq_nth {A B : Type} (f : A -> B) (d : A) (l : list A) :
  map f l = map (fun k => f (nth k l d)) (seq 0 (List.length l)).
Proof.
  induction l as [| a l IH]; [reflexivity |].
  cbn [List.length seq map nth]. f_equal.
  rewrite <- seq_shift, map_map. exact IH.
Qed.

Lemma weight_as_worded (cmf1964 : table) (D65 : list Q) :
  List.length cmf1964 = 81%nat -> List.length D65 = 81%nat ->
  weight cmf1964 D65 = weight_spec cmf1964 D65.
Proof.
  intros Hc Hd. unfold weight, weight_spec. f_equal.
  set (ys := map (fun '(_, y, _) => y) cmf1964).
  assert (Hy : List.length ys = 81%nat) by (unfold ys; now rewrite length_map).
  rewrite (map_seq_nth _ (0, 0) (combine ys D65)).
  rewrite length_combine, Hy, Hd. cbn [Nat.min].
  apply map_ext_in. intros k Hk. apply in_seq in Hk.
  assert (E : nth k (combine ys D65) (0, 0) = (nth k ys 0, nth k D65 0))
    by (apply combine_nth; now rewrite Hy, Hd).
  rewrite E.
  assert (F : nth k ys 0 = snd (fst (nth k cmf1964 (0, 0, 0)))).
  { unfold ys.
    transitivity ((fun '(_, y, _) => y) (nth k cmf1964 (0, 0, 0)) : Q).
    - exact (map_nth (fun '(_, y, _) => y) cmf1964 (0, 0, 0) k).
    - now destruct (nth k cmf1964 (0, 0, 0)) as [[a b] c]. }
  now rewrite F.
Qed.

(** C7. For every instance, whatever colour-matching variant it was built
    with, [xyz_to_spec] is the projection the specification describes: the
    XYZ vector scaled by the class-level [weight], combined with each of
    the 81 rows of the 1964 table. *)
Theorem xyz_to_spec_uses_1964 (cmf1964 : table) (D65 : list Q) :
  List.length cmf1964 = 81%nat -> List.length D65 = 81%nat ->
  forall (cs : ColourSystem) (xyz : vec3 Q),
    Forall2 Qeq (xyz_to_spec cmf1964 D65 cs xyz)
                (xyz_to_spec_spec cmf1964 D65 xyz) /\
    List.length (xyz_to_spec cmf1964 D65 cs xyz) = 81%nat /\
    forall cs' : ColourSystem,
      xyz_to_spec cmf1964 D65 cs' xyz = xyz_to_spec cmf1964 D65 cs xyz.
Proof.
  intros Hc Hd cs [[x y] z].
  unfold xyz_to_spec, xyz_to_spec_spec, sum_axis1, multiply_rows.
  rewrite (weight_as_worded _ _ Hc Hd).
  split; [| split].
  - rewrite map_map. generalize (weight_spec cmf1964 D65). intro w.
    clear Hc. induction cmf1964 as [| [[a b] c] l IH]; constructor.
    + cbn. ring.
    + exact IH.
  - now rewrite !length_map.
  - reflexivity.
Qed.

(** ** The claims at concrete inputs *)

(** A white point in the plane of two primaries has a zero white-scaling
    component: the constructor divides by it and the transform holds [nan]
    and an infinity.  Here the primaries are the unit vectors and the white
    point is (1, 1, 0). *)

(** C10 as stated fails: in that system the all-zero XYZ input does not give
    the all-zero array, and the hex encoding is not [#000000]. *)
Lemma zero_xyz_degenerate_white :
  exists cs,
    __init__ flat_cmf flat_cmf (1, 0) (0, 1) (0, 0) (1, 1, 0) 1964 = Ok cs /\
    T cs = ((Fin 1, Fin 0, Fin 0), (Fin 0, Fin 1, Fin 0), (NaN, NaN, PInf)) /\
    xyz_to_rgb cs (0, 0, 0) None = Frac (NaN, NaN, NaN) /\
    xyz_to_rgb cs (0, 0, 0) (Some "html"%string)
    <> Html (Some "#000000"%string).
Proof.
  eexists. split; [vm_compute; reflexivity |].
  split; [vm_compute; reflexivity |].
  split; [vm_compute; reflexivity |].
  vm_compute. discriminate.
Qed.



(** Why the components of C8 are restricted: the binary64 number nearest
    to 0.6 lies below 0.6, and the floor of 255 times its exact value is
    152; the program multiplies in binary64, where the product is rounded
    to 153, and writes the byte [99]. *)
Example product_of_six_tenths :
  B64.to_Q B64.six_tenths = Some (5404319552844595 # 9007199254740992) /\
  Qfloor (255 * (5404319552844595 # 9007199254740992)) = 152%Z /\
  dyadic_unit (5404319552844595 # 9007199254740992) = false /\
  B64.to_Q (B64.times_255 B64.six_tenths) = Some (153 # 1) /\
  format_02x 153 = "99"%string.
Proof. repeat split; vm_compute; reflexivity. Qed.


Lemma xyz_to_rgb_not_negative_witness :
  exists cs,
    cs_srgb flat_cmf flat_cmf = Ok cs /\
    np_any_lt0 (mat_vec (T cs) (xy_to_xyz 0.1 0.8)) = true /\
    finite_vec (mat_vec (T cs) (xy_to_xyz 0.1 0.8)) = true /\
    np_min (desaturate (mat_vec (T cs) (xy_to_xyz 0.1 0.8))) =f= Fin 0 /\
    np_any_lt0 (desaturate (mat_vec (T cs) (xy_to_xyz 0.1 0.8))) = false /\
    np_any_lt0 (normalize (desaturate (mat_vec (T cs) (xy_to_xyz 0.1 0.8))))
    = false.
Proof.
  eexists. split; [vm_compute; reflexivity |].
  split; [vm_compute; reflexivity |].
  split; [vm_compute; reflexivity |].
  match goal with
  | |- np_min (desaturate (mat_vec (T ?cs) ?xyz)) =f= _ /\ _ =>
      destruct (xyz_to_rgb_not_negative cs xyz) as (_ & Hd & Hn);
      destruct (Hd (mat_vec (T cs) xyz)) as (_ & Hd1 & Hd2);
      [vm_compute; reflexivity |]
  end.
  split; [apply Hd2; vm_compute; reflexivity |].
  split; [exact Hd1 |].
  apply Hn, Hd1.
Defined.

Lemma xyz_to_rgb_zero_witness :
  exists cs,
    cs_srgb flat_cmf flat_cmf = Ok cs /\
    finite_mat (T cs) = true /\
    xyz_to_rgb cs (0, 0, 0) None = Frac (mat_vec (T cs) (0, 0, 0)) /\
    vec3_eq (mat_vec (T cs) (0, 0, 0)) (Fin 0, Fin 0, Fin 0) /\
    xyz_to_rgb cs (0, 0, 0) (Some "html"%string) = Html (Some "#000000"%string).
Proof.
  eexists. split; [vm_compute; reflexivity |].
  split; [vm_compute; reflexivity |].
  match goal with
  | |- xyz_to_rgb ?cs _ _ = _ /\ _ =>
      destruct (xyz_to_rgb_zero cs) as (Hz & _ & _ & Hf & Hh);
      [vm_compute; reflexivity |]
  end.
  split; [exact Hf |]. split; [exact Hz | exact Hh].
Defined.


Lemma spec_to_xyz_length_one_not_rejected_witness :
  exists cs,
    cs_srgb flat_cmf flat_cmf = Ok cs /\
    cmf cs = Some flat_cmf /\ List.length flat_cmf = 81%nat /\
    spec_to_xyz cs [1] <> Raise ValueError /\
    List.length (zeros 80) <> 81%nat /\ List.length (zeros 80) <> 1%nat /\
    spec_to_xyz cs (zeros 80) = Raise ValueError.
Proof.
  eexists. split; [vm_compute; reflexivity |].
  split; [reflexivity |]. split; [reflexivity |].
  assert (L : List.length (zeros 80) <> 81%nat) by (vm_compute; discriminate).
  assert (L1 : List.length (zeros 80) <> 1%nat) by (vm_compute; discriminate).
  match goal with
  | |- spec_to_xyz ?cs _ <> _ /\ _ =>
      destruct (spec_to_xyz_length_one_not_rejected cs flat_cmf
                  eq_refl eq_refl) as (H1 & Hv)
  end.
  split; [exact (proj2 (H1 1 ValueError)) |].
  split; [exact L |]. split; [exact L1 |].
  exact (Hv (zeros 80) L L1).
Defined.


Lemma xyz_to_spec_uses_1964_witness :
  List.length flat_cmf = 81%nat /\ List.length flat_D65 = 81%nat /\
  exists cs,
    __init__ flat_cmf flat_cmf (0.64, 0.33) (0.30, 0.60) (0.15, 0.06)
             illuminant_D65 1931 = Ok cs /\
    Forall2 Qeq (xyz_to_spec flat_cmf flat_D65 cs illuminant_D65)
                (xyz_to_spec_spec flat_cmf flat_D65 illuminant_D65) /\
    List.length (xyz_to_spec flat_cmf flat_D65 cs illuminant_D65) = 81%nat.
Proof.
  split; [reflexivity |]. split; [reflexivity |].
  eexists. split; [vm_compute; reflexivity |].
  match goal with
  | |- Forall2 _ (xyz_to_spec _ _ ?cs ?xyz) _ /\ _ =>
      destruct (xyz_to_spec_uses_1964 flat_cmf flat_D65 eq_refl eq_refl cs xyz)
        as (H1 & H2 & _)
  end.
  split; [exact H1 | exact H2].
Defined.


(** * Further properties of the conversions *)

(** ** [xyz_to_rgb]: the range of the result *)

Lemma string_length_append (s t : string) :
  String.length (s ++ t) = (String.length s + String.length t)%nat.
Proof. induction s as [| c s IH]; cbn; [reflexivity | now rewrite IH]. Qed.

(** On a finite array the two steps return components between 0 and 1,
    which the hex encoding writes as a string of seven characters. *)
Lemma pipeline_unit_range (a b c : Q) :
  exists r g b0 s,
    normalize (desaturate (Fin a, Fin b, Fin c)) = (Fin r, Fin g, Fin b0) /\
    0 <= r <= 1 /\ 0 <= g <= 1 /\ 0 <= b0 <= 1 /\
    rgb_to_hex (Fin r, Fin g, Fin b0) = Some s /\
    String.length s = 7%nat.
Proof.
  destruct (desaturate_fin a b c)
    as (a' & b' & c' & w & -> & _ & _ & _ & _ & Ha & Hb & Hc & _).
  assert (R : exists r g b,
             normalize (Fin a', Fin b', Fin c') = (Fin r, Fin g, Fin b) /\
             0 <= r <= 1 /\ 0 <= g <= 1 /\ 0 <= b <= 1).
  { destruct (np_all_eq0 (Fin a', Fin b', Fin c')) eqn:E.
    - rewrite normalize_zero by assumption.
      apply np_all_eq0_fin in E. exists a', b', c'.
      split; [reflexivity |]. lra.
    - destruct (normalize_fin a' b' c' Ha Hb Hc E)
        as (m & _ & Hm & Ham & Hbm & Hcm & _ & ->).
      do 3 eexists. split; [reflexivity |].
      pose proof (Qdiv_bounds a' m Hm Ha Ham).
      pose proof (Qdiv_bounds b' m Hm Hb Hbm).
      pose proof (Qdiv_bounds c' m Hm Hc Hcm). tauto. }
  destruct R as (r & g & b0 & -> & Hr & Hg & Hb0).
  destruct (byte_of_unit r Hr) as [Er Br], (byte_of_unit g Hg) as [Eg Bg],
           (byte_of_unit b0 Hb0) as [Eb Bb].
  exists r, g, b0. eexists.
  split; [reflexivity |]. split; [exact Hr |]. split; [exact Hg |].
  split; [exact Hb0 |].
  unfold rgb_to_hex, vmap. rewrite Er, Eg, Eb.
  split; [reflexivity |].
  cbn [String.length]. rewrite !string_length_append.
  now rewrite !format_02x_width.
Qed.

(** [xyz_to_rgb] with the html format encodes the array it holds after the
    two steps.  Whenever the array held after the desaturation step is free
    of [nan] and infinities, every component of the normalized array lies
    between 0 and 1, so the hex encoding is defined and is a string of
    exactly seven characters. *)
Theorem xyz_to_rgb_unit_range (cs : ColourSystem) (xyz : vec3 Q) :
  xyz_to_rgb cs xyz (Some "html"%string)
  = Html (rgb_to_hex (normalize (desaturate (mat_vec (T cs) xyz)))) /\
  np_any_lt0 (desaturate (mat_vec (T cs) xyz)) = false /\
  forall d0 d1 d2 : Q,
    np_any_lt0 (Fin d0, Fin d1, Fin d2) = false ->
    exists r g b s,
      normalize (Fin d0, Fin d1, Fin d2) = (Fin r, Fin g, Fin b) /\
      0 <= r <= 1 /\ 0 <= g <= 1 /\ 0 <= b <= 1 /\
      rgb_to_hex (Fin r, Fin g, Fin b) = Some s /\
      String.length s = 7%nat.
Proof.
  split; [apply xyz_to_rgb_html |].
  split; [apply desaturate_not_negative |].
  intros a b c Hneg.
  assert (E : desaturate (Fin a, Fin b, Fin c) = (Fin a, Fin b, Fin c))
    by (unfold desaturate; now rewrite Hneg).
  rewrite <- E. apply pipeline_unit_range.
Qed.

Lemma xyz_to_rgb_unit_range_witness :
  exists cs d0 d1 d2,
    __init__ flat_cmf flat_cmf (1, 0) (0, 1) (0, 0) (1, 1, 1) 1964 = Ok cs /\
    desaturate (mat_vec (T cs) (1 # 2, 1, - (1 # 4)))
    = (Fin d0, Fin d1, Fin d2) /\
    np_any_lt0 (Fin d0, Fin d1, Fin d2) = false /\
    exists s,
      xyz_to_rgb cs (1 # 2, 1, - (1 # 4)) (Some "html"%string)
      = Html (Some s) /\
      String.length s = 7%nat.
Proof.
  eexists. do 3 eexists. split; [vm_compute; reflexivity |].
  match goal with
  | |- ?L = _ /\ _ =>
      let v := eval vm_compute in L in
      assert (D : L = v) by (vm_compute; reflexivity)
  end.
  split; [exact D |].
  match goal with
  | |- np_any_lt0 ?d = false /\ _ =>
      assert (Hneg : np_any_lt0 d = false) by (vm_compute; reflexivity)
  end.
  split; [exact Hneg |].
  match goal with
  | |- exists s, xyz_to_rgb ?cs ?xyz _ = _ /\ _ =>
      destruct (xyz_to_rgb_unit_range cs xyz) as (E & _ & H)
  end.
  destruct (H _ _ _ Hneg) as (r & g & b & s & N & _ & _ & _ & Hs & Hl).
  exists s.
  split; [rewrite E, D, N; exact (f_equal Html Hs) | exact Hl].
Defined.

(** ** [rgb_to_hex]: reading the digits back, and values out of range *)

Lemma format_02x_decodes (n : Z) :
  (0 <= n)%Z -> HexString.Raw.to_N (format_02x n) 0 = Z.to_N n.
Proof.
  intro H. destruct n as [| p | p]; [reflexivity | | lia].
  unfold format_02x. cbn [Z.ltb Z.compare hex_digits].
  assert (E : HexString.Raw.to_N (HexString.Raw.of_pos p "") 0 = N.pos p)
    by (rewrite HexString.Raw.to_N_of_pos; reflexivity).
  destruct (String.length (HexString.Raw.of_pos p "") <? 2)%nat; exact E.
Qed.

Lemma ascii_to_digit_bound (c : ascii) :
  match HexString.ascii_to_digit c with
  | Some v => (v <= 15)%N
  | None => True
  end.
Proof.
  unfold HexString.ascii_to_digit.
  repeat match goal with
         | |- context [ascii_dec ?a ?b] => destruct (ascii_dec a b)
         end; cbn; trivial; lia.
Qed.

Lemma to_N_two_digits (s : string) :
  (String.length s <= 2)%nat -> (HexString.Raw.to_N s 0 < 256)%N.
Proof.
  destruct s as [| c1 [| c2 [| c3 s]]]; cbn [String.length]; intro H;
    [reflexivity | | | lia].
  - cbn [HexString.Raw.to_N]. pose proof (ascii_to_digit_bound c1).
    destruct (HexString.ascii_to_digit c1); lia.
  - cbn [HexString.Raw.to_N].
    pose proof (ascii_to_digit_bound c1). pose proof (ascii_to_digit_bound c2).
    destruct (HexString.ascii_to_digit c1), (HexString.ascii_to_digit c2); lia.
Qed.

Lemma format_02x_wide (n : Z) :
  (256 <= n)%Z -> (3 <= String.length (format_02x n))%nat.
Proof.
  intro H.
  destruct (Nat.le_gt_cases (String.length (format_02x n)) 2) as [L | L];
    [| lia].
  apply to_N_two_digits in L. rewrite format_02x_decodes in L by lia. lia.
Qed.

(** The hex digits of each channel, read back as a number, are the
    component times 255 with its fraction dropped, for components that
    binary64 multiplies by 255 without rounding: the colour string loses
    less than 1/255 in each channel. *)
Theorem rgb_to_hex_decodes (r g b : Q) :
  dyadic_unit r = true -> dyadic_unit g = true -> dyadic_unit b = true ->
  exists hr hg hb : string,
    rgb_to_hex (Fin r, Fin g, Fin b) = Some (String "#" (hr ++ hg ++ hb)) /\
    String.length hr = 2%nat /\ String.length hg = 2%nat /\
    String.length hb = 2%nat /\
    (let dec h := inject_Z (Z.of_N (HexString.Raw.to_N h 0)) in
     dec hr <= 255 * r < dec hr + 1 /\
     dec hg <= 255 * g < dec hg + 1 /\
     dec hb <= 255 * b < dec hb + 1).
Proof.
  intros Hr Hg Hb. apply dyadic_unit_range in Hr, Hg, Hb.
  destruct (byte_of_unit r Hr) as [Er Br], (byte_of_unit g Hg) as [Eg Bg],
           (byte_of_unit b Hb) as [Eb Bb].
  exists (format_02x (Qfloor (255 * r))), (format_02x (Qfloor (255 * g))),
         (format_02x (Qfloor (255 * b))).
  split; [unfold rgb_to_hex, vmap; now rewrite Er, Eg, Eb |].
  rewrite !format_02x_width by assumption.
  repeat split; trivial; cbv zeta;
    rewrite format_02x_decodes, Z2N.id by lia;
    try apply Qfloor_le.
  all: match goal with
       | |- _ < inject_Z (Qfloor ?q) + 1 =>
           pose proof (Qlt_floor q) as L;
           rewrite inject_Z_plus in L; exact L
       end.
Qed.

Lemma rgb_to_hex_decodes_witness :
  dyadic_unit 0.25 = true /\ dyadic_unit 0.75 = true /\
  dyadic_unit 0.125 = true /\
  exists hr hg hb : string,
    rgb_to_hex (Fin 0.25, Fin 0.75, Fin 0.125)
    = Some (String "#" (hr ++ hg ++ hb)) /\
    inject_Z (Z.of_N (HexString.Raw.to_N hr 0)) <= 255 * 0.25 /\
    inject_Z (Z.of_N (HexString.Raw.to_N hg 0)) <= 255 * 0.75 /\
    inject_Z (Z.of_N (HexString.Raw.to_N hb 0)) <= 255 * 0.125.
Proof.
  split; [reflexivity |]. split; [reflexivity |]. split; [reflexivity |].
  destruct (rgb_to_hex_decodes 0.25 0.75 0.125 eq_refl eq_refl eq_refl)
    as (hr & hg & hb & E & _ & _ & _ & D).
  cbv zeta in D. exists hr, hg, hb. tauto.
Defined.

Lemma Qfloor_lt_Z (q : Q) (z : Z) : q < inject_Z z -> (Qfloor q < z)%Z.
Proof.
  intro H. rewrite Zlt_Qlt.
  eapply Qle_lt_trans; [apply Qfloor_le | exact H].
Qed.

(** [rgb_to_hex] does not clamp. A component that exceeds 1 by enough to
    reach 256 gets three or more hex digits, so the string is longer than
    seven characters; a component at or below -1/255 gets a minus sign. *)
Theorem rgb_to_hex_out_of_range (r g b : Q) :
  0 <= g <= 1 -> 0 <= b <= 1 ->
  (256 <= 255 * r -> 255 * r < 2147483648 ->
   exists s, rgb_to_hex (Fin r, Fin g, Fin b) = Some s /\
             (8 <= String.length s)%nat) /\
  (255 * r <= -1 -> -2147483648 <= 255 * r ->
   exists s,
     rgb_to_hex (Fin r, Fin g, Fin b) = Some (String "#" (String "-" s))).
Proof.
  intros Hg Hb.
  destruct (byte_of_unit g Hg) as [Eg Bg], (byte_of_unit b Hb) as [Eb Bb].
  split.
  - intros Lo Hi.
    assert (F : (256 <= Qfloor (255 * r) < 2 ^ 31)%Z).
    { split.
      - change 256%Z with (Qfloor 256). apply Qfloor_resp_le. exact Lo.
      - apply Qfloor_lt_Z. exact Hi. }
    assert (Er : astype_int (fmul (Fin 255) (Fin r)) = Some (Qfloor (255 * r))).
    { cbn [fmul astype_int]. rewrite Qtrunc_floor by lra.
      replace ((- 2 ^ 31 <=? Qfloor (255 * r)) && (Qfloor (255 * r) <? 2 ^ 31))%Z
        with true; trivial.
      symmetry. apply andb_true_iff. split; lia. }
    eexists. unfold rgb_to_hex, vmap. rewrite Er, Eg, Eb.
    split; [reflexivity |].
    cbn [String.length]. rewrite !string_length_append.
    rewrite (format_02x_width _ Bg), (format_02x_width _ Bb).
    pose proof (format_02x_wide (Qfloor (255 * r)) (proj1 F)). lia.
  - intros Hi Lo.
    assert (C : (- 2 ^ 31 <= Qceiling (255 * r) <= -1)%Z).
    { split.
      - change (- 2 ^ 31)%Z with (Qceiling (-2147483648)).
        apply Qceiling_resp_le. exact Lo.
      - change (-1)%Z with (Qceiling (-1)). apply Qceiling_resp_le. exact Hi. }
    assert (Er : astype_int (fmul (Fin 255) (Fin r)) = Some (Qceiling (255 * r))).
    { cbn [fmul astype_int]. rewrite Qtrunc_ceiling by lra.
      replace ((- 2 ^ 31 <=? Qceiling (255 * r)) && (Qceiling (255 * r) <? 2 ^ 31))%Z
        with true; trivial.
      symmetry. apply andb_true_iff. split; lia. }
    eexists. unfold rgb_to_hex, vmap. rewrite Er, Eg, Eb.
    unfold format_02x at 1.
    replace (Qceiling (255 * r) <? 0)%Z with true by (symmetry; lia).
    reflexivity.
Qed.

Lemma rgb_to_hex_out_of_range_witness :
  0 <= 0 <= 1 /\ 256 <= 255 * 2 /\ 255 * 2 < 2147483648 /\
  255 * -1 <= -1 /\ -2147483648 <= 255 * -1 /\
  (exists s, rgb_to_hex (Fin 2, Fin 0, Fin 0) = Some s /\
             (8 <= String.length s)%nat) /\
  (exists s,
     rgb_to_hex (Fin (-1), Fin 0, Fin 0) = Some (String "#" (String "-" s))).
Proof.
  assert (H0 : 0 <= 0 <= 1) by (split; discriminate).
  assert (H1 : 256 <= 255 * 2) by discriminate.
  assert (H2 : 255 * 2 < 2147483648) by reflexivity.
  assert (H3 : 255 * -1 <= -1) by discriminate.
  assert (H4 : -2147483648 <= 255 * -1) by discriminate.
  repeat (split; [assumption |]).
  split.
  - exact (proj1 (rgb_to_hex_out_of_range 2 0 0 H0 H0) H1 H2).
  - exact (proj2 (rgb_to_hex_out_of_range (-1) 0 0 H0 H0) H3 H4).
Defined.

(** ** [spec_to_xyz]: the outcomes *)

(** The outcomes of [spec_to_xyz]: without a table it raises
    [AttributeError]; with a table it raises [ValueError] when the two
    lengths differ and neither is 1; in every other case it raises no
    exception. *)
Theorem spec_to_xyz_outcomes (cs : ColourSystem) (spec : list Q) :
  (cmf cs = None -> spec_to_xyz cs spec = Raise AttributeError) /\
  (forall tbl, cmf cs = Some tbl ->
     (List.length spec <> List.length tbl /\
      List.length spec <> 1%nat /\ List.length tbl <> 1%nat ->
      spec_to_xyz cs spec = Raise ValueError) /\
     (List.length spec = List.length tbl \/
      List.length spec = 1%nat \/ List.length tbl = 1%nat ->
      forall e, spec_to_xyz cs spec <> Raise e)).
Proof.
  split.
  - intro H. unfold spec_to_xyz. now rewrite H.
  - intros tbl Hc. split.
    + intros (H1 & H2 & H3). unfold spec_to_xyz. rewrite Hc.
      now rewrite broadcast_rows_mismatch.
    + intros H e.
      assert (B : exists P, broadcast_rows spec tbl = Ok P).
      { unfold broadcast_rows.
        destruct (Nat.eqb_spec (List.length spec) (List.length tbl)) as [E | E];
          [eexists; reflexivity |].
        destruct H as [H | [H | H]]; [contradiction | |].
        - destruct spec as [| s [| s' spec]]; try discriminate.
          eexists; reflexivity.
        - destruct tbl as [| r [| r' tbl]]; try discriminate.
          destruct spec as [| s [| s' spec]]; eexists; reflexivity. }
      destruct B as [P HP].
      unfold spec_to_xyz. rewrite Hc, HP. cbn [bind].
      destruct (sum_axis0 P) as [[X Y] Z].
      destruct (Qeq_bool (X + Y + Z) 0); discriminate.
Qed.

Lemma spec_to_xyz_outcomes_witness :
  exists cs,
    cs_srgb flat_cmf flat_cmf = Ok cs /\
    cmf cs = Some flat_cmf /\
    (List.length (zeros 80) <> List.length flat_cmf /\
     List.length (zeros 80) <> 1%nat /\ List.length flat_cmf <> 1%nat) /\
    spec_to_xyz cs (zeros 80) = Raise ValueError /\
    spec_to_xyz cs [5] <> Raise ValueError.
Proof.
  eexists. split; [vm_compute; reflexivity |].
  split; [reflexivity |].
  assert (L : List.length (zeros 80) <> List.length flat_cmf /\
              List.length (zeros 80) <> 1%nat /\ List.length flat_cmf <> 1%nat)
    by (vm_compute; repeat split; discriminate).
  split; [exact L |].
  match goal with
  | |- spec_to_xyz ?cs _ = _ /\ _ =>
      split;
      [exact (proj1 (proj2 (spec_to_xyz_outcomes cs (zeros 80))
                       flat_cmf eq_refl) L)
      | exact (proj2 (proj2 (spec_to_xyz_outcomes cs [5])
                        flat_cmf eq_refl) (or_intror (or_introl eq_refl))
                     ValueError)]
  end.
Defined.

(** ** The colour systems of the module *)

(** The three predefined systems are well formed whatever the reference
    tables hold: the constructor succeeds, the colour-matching table is the
    1964 one, the white point is D65, every white-scaling component is
    positive and the transform is finite. *)
Theorem predefined_systems_well_formed (cmf1931 cmf1964 : table) :
  forall r,
    r = cs_hdtv cmf1931 cmf1964 \/ r = cs_smpte cmf1931 cmf1964 \/
    r = cs_srgb cmf1931 cmf1964 ->
    exists cs,
      r = Ok cs /\
      cmf cs = Some cmf1964 /\ white cs = illuminant_D65 /\
      (let '(w0, w1, w2) := wscale cs in 0 < w0 /\ 0 < w1 /\ 0 < w2) /\
      finite_mat (T cs) = true.
Proof.
  intros r [-> | [-> | ->]]; eexists;
    (split; [vm_compute; reflexivity |]);
    (split; [reflexivity |]); (split; [reflexivity |]);
    (split; [vm_compute; repeat split; reflexivity | vm_compute; reflexivity]).
Qed.

Lemma predefined_systems_well_formed_witness :
  exists cs,
    cs_hdtv flat_cmf flat_cmf = Ok cs /\
    cmf cs = Some flat_cmf /\ white cs = illuminant_D65 /\
    (let '(w0, w1, w2) := wscale cs in 0 < w0 /\ 0 < w1 /\ 0 < w2) /\
    finite_mat (T cs) = true.
Proof.
  exact (predefined_systems_well_formed flat_cmf flat_cmf
           (cs_hdtv flat_cmf flat_cmf) (or_introl eq_refl)).
Defined.
